(** * url_check.py: checking the subscribed URLs of [moztw/config.ini]

    A shallow embedding of [src/url_check.py] and the properties of its
    extractor, request classifier, formatter and orchestrator.

    - A Python [str] is the list of its code points; [<] on [str] is the
      lexicographic order of the code points, which is what [list.sort]
      compares with.
    - A [dict] is the list of its items in insertion order, with
      [dict_setitem] doing what [d[k] = v] does.
    - A call that may raise returns an [outcome]: the value, or the exception.
    - The network is a function from the requested URL to what
      [session.get] does for it: a response, or an exception.
    - [asyncio.gather] hands its results back in the order of its arguments;
      the order in which the awaitables complete is a parameter, and only
      decides which exception surfaces when several are raised.
    - A value of [dict(config)] is a [configparser.SectionProxy]; [main]
      only looks [truelink] up in it, and the proxy is given by what that
      lookup does: it returns a string or raises.
    - The [logger] calls write to the log sink only (neither the returned
      value nor the standard output), and are left out. *)

From Stdlib Require Import ZArith NArith Ascii String Lia.
From stdpp Require Import base decidable option list sorting.

Local Open Scope Z_scope.

(** ** Strings *)

Module Str.

(** A Python [str]: its code points. *)
Abbreviation str := (list N).

(** The code points of a UTF-8 byte sequence (of a well-formed one). *)
Fixpoint decode_utf8 (bytes : list N) : str :=
  match bytes with
  | [] => []
  | b :: rest =>
      if (b <? 128)%N then b :: decode_utf8 rest
      else if (b <? 224)%N then
        match rest with
        | c1 :: rest' => ((b - 192) * 64 + (c1 - 128))%N :: decode_utf8 rest'
        | _ => []
        end
      else if (b <? 240)%N then
        match rest with
        | c1 :: c2 :: rest' =>
            ((b - 224) * 4096 + (c1 - 128) * 64 + (c2 - 128))%N :: decode_utf8 rest'
        | _ => []
        end
      else
        match rest with
        | c1 :: c2 :: c3 :: rest' =>
            ((b - 240) * 262144 + (c1 - 128) * 4096 + (c2 - 128) * 64 + (c3 - 128))%N
              :: decode_utf8 rest'
        | _ => []
        end
  end.

(** A string literal of the source: this file is UTF-8, as the source is. *)
Definition lit (s : string) : str :=
  decode_utf8 (map (fun a => N.of_nat (nat_of_ascii a)) (list_ascii_of_string s)).

(** [a < b], [a == b], [a > b] on [str], as Python compares strings: code
    point by code point, a proper prefix coming first. *)
Fixpoint compare (a b : str) : comparison :=
  match a, b with
  | [], [] => Eq
  | [], _ :: _ => Lt
  | _ :: _, [] => Gt
  | x :: a', y :: b' =>
      match N.compare x y with
      | Eq => compare a' b'
      | c => c
      end
  end.

(** [not (b < a)]. *)
Definition le (a b : str) : Prop := compare a b <> Gt.

(** [s.startswith(prefix)]. *)
Fixpoint startswith (s prefix : str) : bool :=
  match prefix, s with
  | [], _ => true
  | _ :: _, [] => false
  | p :: prefix', c :: s' => if N.eqb c p then startswith s' prefix' else false
  end.

(** [sep.join(parts)]. *)
Fixpoint join (sep : str) (parts : list str) : str :=
  match parts with
  | [] => []
  | [p] => p
  | p :: parts' => p ++ sep ++ join sep parts'
  end.

(** The text of [f"{x}"] for [x : str | None]. *)
Definition format (x : option str) : str :=
  match x with
  | Some s => s
  | None => lit "None"%string
  end.

(** ["\n"]. *)
Definition newline : str := [10%N].

End Str.

Import Str.

#[global] Instance str_le_dec (a b : str) : Decision (Str.le a b).
Proof. unfold Str.le. destruct (Str.compare a b); [left|left|right]; congruence. Defined.

(** ** Exceptions and results *)

(** The exceptions the program meets. [ClientResponseError] stands for the
    class of that name with its subclasses, and carries
    [request_info.url] and [message]; [OtherException] is any exception of
    another class (a connection error, a timeout, an invalid URL, ...). *)
Inductive exn : Type :=
| KeyError (key : str)
| ClientResponseError (request_url message : str)
| OtherException (name : str).

Inductive outcome (A : Type) : Type :=
| Returned (a : A)
| Raised (e : exn).
Arguments Returned {A} a.
Arguments Raised {A} e.

#[global] Instance exn_eq_dec : EqDecision exn.
Proof. solve_decision. Defined.

#[global] Instance outcome_eq_dec {A} `{EqDecision A} : EqDecision (outcome A).
Proof. solve_decision. Defined.

#[global] Instance outcome_ret : MRet outcome := fun A a => Returned a.
#[global] Instance outcome_bind : MBind outcome := fun A B f m =>
  match m with
  | Returned a => f a
  | Raised e => Raised e
  end.

(** ** The data of [url_check.py] *)

(** [class SiteStatus(Enum)]. *)
Inductive SiteStatus : Type := Normal | Moved | Unavailable.

Definition SiteStatus_value (s : SiteStatus) : Z :=
  match s with
  | Normal => 200
  | Moved => 301
  | Unavailable => 404
  end.

#[global] Instance SiteStatus_eq_dec : EqDecision SiteStatus.
Proof. solve_decision. Defined.

(** What [try_request] reads of an [aiohttp.ClientResponse]: [resp.status],
    [resp.history] (the responses of the redirects that were followed) and
    [str(resp.url)]. *)
#[warnings="-register-all"]
Inductive ClientResponse : Type :=
  mkClientResponse {
    status : Z;
    history : list ClientResponse;
    url : str
  }.

(** What [session.get(url)] does, for each URL. *)
Definition network : Type := str -> outcome ClientResponse.

(** [resp.status in range(200, 300)]. *)
Definition in_range_200_300 (n : Z) : bool := (200 <=? n) && (n <? 300).

(** The truth value of [x : ClientResponse | None]: a response object
    defines neither [__bool__] nor [__len__], so only [None] is false. *)
Definition truthy {A} (x : option A) : bool :=
  match x with
  | Some _ => true
  | None => false
  end.

(** [try_request(url)]. Only a [ClientResponseError] is caught. *)
Definition try_request (net : network) (url_ : str)
  : outcome (SiteStatus * option str) :=
  match net url_ with
  | Returned resp =>
      if in_range_200_300 (status resp) then
        let history_ :=
          if decide (0 < length (history resp))%nat then history resp !! 0%nat
          else None in
        if truthy history_ then Returned (Moved, Some (url resp))
        else Returned (Normal, None)
      else Returned (Unavailable, None)
  | Raised (ClientResponseError _ _) => Returned (Unavailable, None)
  | Raised e => Raised e
  end.

(** [interpret_result(url, response)]. *)
Definition interpret_result (url_ : str) (response : SiteStatus * option str)
  : option str :=
  let '(status_, redirect_url) := response in
  match status_ with
  | Normal => None
  | Moved =>
      Some (lit "| 301 轉址 | "%string ++ url_ ++ lit " | "%string
              ++ Str.format redirect_url ++ lit " |"%string)
  | Unavailable =>
      Some (lit "| 404 失效 | "%string ++ url_ ++ lit " | |"%string)
  end.

(** ** Dictionaries *)

(** A [dict] with [str] keys: its items, in insertion order. The keys of a
    dictionary are pairwise different ([dict_wf]). *)
Abbreviation dict V := (list (str * V)).

Definition dict_keys {V} (d : dict V) : list str := d.*1.

Definition dict_wf {V} (d : dict V) : Prop := NoDup (dict_keys d).

(** [d.items()]. *)
Definition dict_items {V} (d : dict V) : list (str * V) := d.

(** [d[k] = v]: a key that is there keeps its place and takes the new value,
    a new key goes to the end. *)
Fixpoint dict_setitem {V} (k : str) (v : V) (d : dict V) : dict V :=
  match d with
  | [] => [(k, v)]
  | (k', v') :: d' =>
      if decide (k = k') then (k', v) :: d' else (k', v') :: dict_setitem k v d'
  end.

(** [d.get(k)]. *)
Fixpoint dict_get {V} (k : str) (d : dict V) : option V :=
  match d with
  | [] => None
  | (k', v') :: d' => if decide (k = k') then Some v' else dict_get k d'
  end.

(** [d[k]], which raises [KeyError] for a key that is not there. *)
Definition dict_getitem {V} (k : str) (d : dict V) : outcome V :=
  match dict_get k d with
  | Some v => Returned v
  | None => Raised (KeyError k)
  end.

(** [class SubscribedUrl(TypedDict)]: at run time a mapping from field names
    to strings; nothing checks that the five fields are there. *)
Abbreviation SubscribedUrl := (dict str).

Definition SubscribedUrl_fields : list str :=
  [lit "name"; lit "description"; lit "blogname"; lit "icon"; lit "truelink"].

(** What [main] reads of a value of [dict(config)], which is a
    [configparser.SectionProxy]: the outcome of [value["truelink"]]. The
    lookup takes the option from the section, or else from the DEFAULT section
    of the parser, and interpolates its value. It returns the string, or
    raises: [KeyError] when neither section has the option, an interpolation
    error when the value has a [%] that is followed neither by [%] nor by the
    reference to an option that is there. *)
Record SectionProxy : Type :=
  mkSectionProxy {
    getitem_truelink : outcome str
  }.

#[global] Instance SectionProxy_eq_dec : EqDecision SectionProxy.
Proof. solve_decision. Defined.

(** [k.startswith('http')], on an item [(k, v)]. *)
Definition is_http {V} (kv : str * V) : bool := startswith kv.1 (lit "http"%string).

(** [extract_urls_from_config(config)]: the dictionary comprehension
    [{ k: v for k, v in config.items() if k.startswith('http') }]; [cast]
    does nothing at run time. *)
Definition extract_urls_from_config {V} (config : dict V) : dict V :=
  fold_left
    (fun acc '(k, v) => if startswith k (lit "http") then dict_setitem k v acc else acc)
    (dict_items config) [].

(** ** [asyncio.gather] *)

Fixpoint first_raised {A} (aws : list (outcome A)) : option exn :=
  match aws with
  | [] => None
  | Returned _ :: aws' => first_raised aws'
  | Raised e :: _ => Some e
  end.

Definition returned_value {A} (o : outcome A) : option A :=
  match o with
  | Returned a => Some a
  | Raised _ => None
  end.

(** [await asyncio.gather] of the awaitables [aws]. [completion] lists positions of [aws] in
    the order in which they complete (the positions it leaves out complete
    afterwards, in order). The first exception raised propagates; when
    nothing is raised the results come back in the order of [aws]. *)
Definition gather {A} (completion : list nat) (aws : list (outcome A))
  : outcome (list A) :=
  match first_raised (omap (fun i => aws !! i) completion ++ aws) with
  | Some e => Raised e
  | None => Returned (omap returned_value aws)
  end.

(** ** The orchestrator *)

(** The completion orders of a run: of the entries' pairs of requests among
    themselves, and of the two requests of each entry. *)
Record schedule : Type :=
  mkSchedule {
    outer : list nat;
    inner : str -> list nat
  }.

(** [request_action(url)], the closure of [main]. *)
Definition request_action (net : network) (url_ : str) : outcome (option str) :=
  resp ← try_request net url_;
  mret (interpret_result url_ resp).

(** [list.insert(i, x)] for [0 <= i]. *)
Definition list_insert_at {A} (i : nat) (x : A) (l : list A) : list A :=
  take i l ++ x :: drop i l.

(** [list.sort()] on a list of [str]. The sorted arrangement of a list of
    strings is unique ([sort_unique]), so every sorting algorithm returns
    this list. *)
Definition list_sort (l : list str) : list str := merge_sort Str.le l.

Definition title_row : str := lit "| 狀態 | 網址 | 轉址網址 |"%string.

Definition separator_row : str := lit "| --- | --- | ------ |"%string.

(** What [print(s)] writes to the standard output. *)
Definition print (s : str) : str := s ++ newline.

(** Lines 125-134 of [main]: from [raw_response] to the text printed. *)
Definition report (raw_response : list (list (option str))) : str :=
  let response := omap id (filter (fun x => x <> None) (concat raw_response)) in
  let response := list_sort response in
  let response := list_insert_at 0 title_row response in
  let response := list_insert_at 1 separator_row response in
  print (join newline response).

(** A run: what it wrote to the standard output, and how it ended. *)
Record run : Type :=
  mkRun {
    stdout : str;
    result : outcome unit
  }.

(** The awaitables that the generator expression of [main] hands to the outer
    [gather], built in the order of [http_urls.items()]; [value["truelink"]]
    is looked up while they are built. *)
Definition entry_checks (sched : schedule) (net : network)
    (items : list (str * SectionProxy))
  : outcome (list (outcome (list (option str)))) :=
  mapM (fun '(key, value) =>
          truelink ← getitem_truelink value;
          mret (gather (inner sched key)
                  [request_action net key; request_action net truelink]))
       items.

(** [main()], for the [dict(config)] that was read. *)
Definition main (sched : schedule) (net : network) (config : dict SectionProxy)
  : run :=
  let http_urls := extract_urls_from_config config in
  let raw_response :=
    aws ← entry_checks sched net (dict_items http_urls);
    gather (outer sched) aws in
  match raw_response with
  | Returned raw_response => {| stdout := report raw_response; result := Returned () |}
  | Raised e => {| stdout := []; result := Raised e |}
  end.

(** ** Notions used to state the properties *)

(** The outcomes of [session.get] that [try_request] turns into a returned
    value. *)
Definition handled (o : outcome ClientResponse) : Prop :=
  match o with
  | Returned _ => True
  | Raised (ClientResponseError _ _) => True
  | Raised _ => False
  end.

(** The URLs that a run requests: for each item, its key and its
    [truelink]. *)
Definition checked_urls (http_urls : dict SectionProxy) : list str :=
  kv ← dict_items http_urls;
  kv.1 :: option_list (returned_value (getitem_truelink kv.2)).

(** What the two requests of an item give to [raw_response], when the
    lookup of its [truelink] returns and neither request raises. *)
Definition entry_rows (net : network) (kv : str * SectionProxy)
  : option (list (option str)) :=
  truelink ← returned_value (getitem_truelink kv.2);
  a ← returned_value (request_action net kv.1);
  b ← returned_value (request_action net truelink);
  Some [a; b].

(** The rows of a [raw_response]. *)
Definition rows_of (raw_response : list (list (option str))) : list str :=
  omap id (concat raw_response).

(** The row that the check of a URL leaves in the report, if it leaves
    one. *)
Definition row_of (net : network) (url_ : str) : option str :=
  match request_action net url_ with
  | Returned row => row
  | Raised _ => None
  end.

(** The exceptions that the [except] clause of [try_request] catches. *)
Definition is_ClientResponseError (e : exn) : Prop :=
  match e with
  | ClientResponseError _ _ => True
  | _ => False
  end.

(** ** Sample inputs *)

Module Sample.

Definition a_url : str := lit "http://a.example"%string.
Definition a_new_url : str := lit "https://a.example/new"%string.
Definition b_url : str := lit "http://b.example"%string.
Definition c_url : str := lit "http://c.example"%string.
Definition d_url : str := lit "http://d.example"%string.
Definition unreachable_url : str := lit "http://unreachable.example"%string.

(** [a_url] is redirected (twice) to [a_new_url], [b_url] answers 404,
    [c_url] answers 200, [a_new_url] answers 204, [d_url] redirects for ever, and nothing else can be
    reached. *)
Definition net : network := fun u =>
  if decide (u = a_url) then
    Returned
      (mkClientResponse 200
         [mkClientResponse 301 [] a_url;
          mkClientResponse 302 [] (lit "https://a.example"%string)]
         a_new_url)
  else if decide (u = b_url) then Returned (mkClientResponse 404 [] b_url)
  else if decide (u = c_url) then Returned (mkClientResponse 200 [] c_url)
  else if decide (u = a_new_url) then Returned (mkClientResponse 204 [] a_new_url)
  else if decide (u = d_url) then
    Raised (ClientResponseError d_url (lit "TooManyRedirects"%string))
  else Raised (OtherException (lit "ClientConnectorError"%string)).

Definition entry (truelink : str) : SubscribedUrl :=
  [(lit "name"%string, lit "A blog"%string);
   (lit "description"%string, lit "Posts"%string);
   (lit "blogname"%string, lit "Blog"%string);
   (lit "icon"%string, lit "default"%string);
   (lit "truelink"%string, truelink)].

Definition config : dict SubscribedUrl :=
  [(lit "DEFAULT"%string, []);
   (lit "Planet"%string, [(lit "name"%string, lit "Planet MozTW"%string)]);
   (d_url, entry c_url);
   (b_url, entry b_url);
   (a_url, entry a_new_url)].

(** The proxy of a section with the options [options], none with a [%] in
    its value, in a parser whose DEFAULT section has no [truelink]. *)
Definition proxy (options : SubscribedUrl) : SectionProxy :=
  {| getitem_truelink := dict_getitem (lit "truelink"%string) options |}.

(** The proxy of a section with [truelink = https://a.example/%E4%B8%AD]. *)
Definition percent_proxy : SectionProxy :=
  {| getitem_truelink := Raised (OtherException (lit "InterpolationSyntaxError"%string)) |}.

(** [dict(config)] for the sections of [config]. *)
Definition parsed : dict SectionProxy := prod_map id proxy <$> config.

Definition sched : schedule := mkSchedule [2; 0; 1]%nat (fun _ => [1; 0]%nat).

End Sample.

(** * Properties *)

(** ** The order on strings *)

Section str_order.

Lemma compare_eq_iff (a b : str) : Str.compare a b = Eq <-> a = b.
Proof.
  revert b. induction a as [|x a IH]; intros [|y b]; simpl; try (split; congruence).
  destruct (N.compare_spec x y) as [->|Hlt|Hgt].
  - rewrite IH. split; congruence.
  - split; [discriminate|]. intros [= -> _]. lia.
  - split; [discriminate|]. intros [= -> _]. lia.
Qed.

Lemma compare_antisym (a b : str) : Str.compare b a = CompOpp (Str.compare a b).
Proof.
  revert b. induction a as [|x a IH]; intros [|y b]; simpl; try reflexivity.
  rewrite (N.compare_antisym x y).
  destruct (N.compare x y); simpl; auto.
Qed.

Lemma compare_Lt_trans (a b c : str) :
  Str.compare a b = Lt -> Str.compare b c = Lt -> Str.compare a c = Lt.
Proof.
  revert b c. induction a as [|x a IH]; intros [|y b] [|z c]; simpl; try congruence.
  destruct (N.compare_spec x y) as [->|Hxy|Hxy]; try discriminate.
  - destruct (N.compare_spec y z) as [->|Hyz|Hyz]; try discriminate; eauto.
  - destruct (N.compare_spec y z) as [->|Hyz|Hyz]; try discriminate; intros _ _.
    + destruct (N.compare_spec x z); [lia|reflexivity|lia].
    + destruct (N.compare_spec x z); [lia|reflexivity|lia].
Qed.

#[global] Instance str_le_refl : Reflexive Str.le.
Proof. intros a. unfold Str.le. by rewrite (proj2 (compare_eq_iff a a) eq_refl). Qed.

#[global] Instance str_le_total : Total Str.le.
Proof.
  intros a b. unfold Str.le. rewrite (compare_antisym a b).
  destruct (Str.compare a b); simpl; [left|left|right]; congruence.
Qed.

#[global] Instance str_le_trans : Transitive Str.le.
Proof.
  intros a b c. unfold Str.le. intros Hab Hbc.
  destruct (Str.compare a b) eqn:Eab; [|clear Hab|done].
  - apply compare_eq_iff in Eab as ->. done.
  - destruct (Str.compare b c) eqn:Ebc; [|clear Hbc|done].
    + apply compare_eq_iff in Ebc as ->. congruence.
    + rewrite (compare_Lt_trans a b c); done.
Qed.

#[global] Instance str_le_antisym : AntiSymm (=) Str.le.
Proof.
  intros a b. unfold Str.le. rewrite (compare_antisym a b).
  destruct (Str.compare a b) eqn:E; simpl; try congruence.
  intros _ _. by apply compare_eq_iff.
Qed.

End str_order.

(** ** Sorting *)

Lemma list_sort_Sorted (l : list str) : Sorted Str.le (list_sort l).
Proof. apply (Sorted_merge_sort Str.le). Qed.

Lemma list_sort_Permutation (l : list str) : list_sort l ≡ₚ l.
Proof. apply (merge_sort_Permutation Str.le). Qed.

(** A list of strings has one sorted arrangement only, that of [list_sort]. *)
Lemma sort_unique (l sorted : list str) :
  Sorted Str.le sorted -> sorted ≡ₚ l -> sorted = list_sort l.
Proof.
  intros Hs Hp. apply (Sorted_unique Str.le); [done|apply list_sort_Sorted|].
  by rewrite list_sort_Permutation.
Qed.

Lemma list_sort_Permutation_eq (l1 l2 : list str) :
  l1 ≡ₚ l2 -> list_sort l1 = list_sort l2.
Proof.
  intros Hp. apply sort_unique; [apply list_sort_Sorted|].
  by rewrite list_sort_Permutation.
Qed.

(** ** Dictionaries and the extractor *)

Section dict_facts.
Context {V : Type}.
Implicit Types (d config acc : dict V) (k : str) (v : V).

Lemma dict_setitem_fresh k v d :
  k ∉ dict_keys d -> dict_setitem k v d = d ++ [(k, v)].
Proof.
  unfold dict_keys. induction d as [|[k' v'] d IH]; simpl; [done|].
  rewrite not_elem_of_cons. intros [Hne Hd].
  rewrite decide_False by done. by rewrite IH.
Qed.

Lemma dict_get_Some k v d : dict_get k d = Some v -> (k, v) ∈ d.
Proof.
  induction d as [|[k' v'] d IH]; simpl; [done|].
  case_decide as Hk; [intros [= ->]; subst; left | right; auto].
Qed.

Lemma dict_get_elem_of k v d : dict_wf d -> (k, v) ∈ d -> dict_get k d = Some v.
Proof.
  unfold dict_wf, dict_keys. induction d as [|[k' v'] d IH]; simpl.
  { by intros _ ?%elem_of_nil. }
  rewrite NoDup_cons. intros [Hk' Hd] Hin. apply elem_of_cons in Hin as [[= -> ->]|Hin].
  - by rewrite decide_True.
  - rewrite decide_False; [auto|]. intros ->. apply Hk'.
    apply list_elem_of_fmap. by exists (k', v).
Qed.

Lemma dict_get_filter (P : str * V -> bool) k d :
  dict_wf d ->
  dict_get k (filter (fun kv => P kv = true) d)
  = v ← dict_get k d; if P (k, v) then Some v else None.
Proof.
  unfold dict_wf, dict_keys. induction d as [|[k' v'] d IH]; simpl; [done|].
  rewrite NoDup_cons. intros [Hk' Hd]. rewrite filter_cons.
  destruct (decide (k = k')) as [->|Hne];
    destruct (decide (P (k', v') = true)) as [HP|HP]; simpl.
  - rewrite decide_True by done. by rewrite HP.
  - apply not_true_is_false in HP. rewrite HP.
    destruct (dict_get k' (filter _ d)) as [v|] eqn:Hget; [|done].
    exfalso. apply Hk'. apply dict_get_Some, list_elem_of_filter in Hget as [_ Hget].
    apply list_elem_of_fmap. by exists (k', v).
  - rewrite decide_False by done. auto.
  - auto.
Qed.

(** The comprehension appends the kept items one by one. *)
Lemma extract_fold acc config :
  NoDup (dict_keys (acc ++ config)) ->
  fold_left
    (fun acc '(k, v) => if startswith k (lit "http"%string) then dict_setitem k v acc else acc)
    config acc
  = acc ++ filter (fun kv => is_http kv = true) config.
Proof.
  unfold dict_keys. revert acc. induction config as [|[k v] config IH]; intros acc Hnd; simpl.
  { by rewrite filter_nil, app_nil_r. }
  rewrite filter_cons.
  rewrite fmap_app, fmap_cons in Hnd. simpl in Hnd.
  destruct (decide (is_http (k, v) = true)) as [Hk|Hk]; unfold is_http in Hk; simpl in Hk.
  - rewrite Hk, dict_setitem_fresh.
    2:{ apply NoDup_app in Hnd as (_ & Hdis & _). intros Hin. apply (Hdis k Hin). left. }
    rewrite IH; [by rewrite <-app_assoc|].
    rewrite <-app_assoc. simpl. by rewrite fmap_app, fmap_cons.
  - apply not_true_is_false in Hk. rewrite Hk.
    apply IH. rewrite fmap_app.
    apply NoDup_app in Hnd as (Ha & Hdis & Hc). apply NoDup_cons in Hc as [_ Hc].
    apply NoDup_app. split_and!; [done| |done].
    intros x Hx Hx'. apply (Hdis x Hx). by right.
Qed.

(** On a dictionary the comprehension is the filter of the items, in order. *)
Lemma extract_filter config :
  dict_wf config ->
  extract_urls_from_config config = filter (fun kv => is_http kv = true) config.
Proof. intros Hwf. unfold extract_urls_from_config, dict_items. by rewrite extract_fold. Qed.

Lemma dict_setitem_keys k v d :
  dict_keys (dict_setitem k v d)
  = if decide (k ∈ dict_keys d) then dict_keys d else dict_keys d ++ [k].
Proof.
  unfold dict_keys. induction d as [|[k' v'] d IH].
  { done. }
  cbn [dict_setitem fmap list_fmap fst].
  destruct (decide (k = k')) as [->|Hne]; cbn [fmap list_fmap fst].
  - rewrite decide_True by left. done.
  - rewrite IH. destruct (decide (k ∈ d.*1)).
    + rewrite decide_True by (by right). done.
    + rewrite decide_False; [done|]. rewrite not_elem_of_cons. done.
Qed.

(** What the comprehension builds is a dictionary whose keys all have the
    prefix, whatever it is run on. *)
Lemma extract_fold_invariant acc config :
  NoDup (dict_keys acc) ->
  Forall (fun kv => is_http kv = true) acc ->
  let out := fold_left
    (fun acc '(k, v) => if startswith k (lit "http"%string) then dict_setitem k v acc else acc)
    config acc in
  NoDup (dict_keys out) /\ Forall (fun kv => is_http kv = true) out.
Proof.
  revert acc. induction config as [|[k v] config IH]; intros acc Hnd Hall; simpl; [done|].
  destruct (startswith k (lit "http"%string)) eqn:Hk; [|by apply IH].
  apply IH.
  - rewrite dict_setitem_keys. case_decide; [done|].
    apply NoDup_app. split_and!; [done| |apply NoDup_singleton].
    intros x Hx ->%list_elem_of_singleton. done.
  - clear IH Hnd. induction acc as [|[k' v'] acc IHacc]; simpl.
    + by repeat constructor.
    + apply Forall_cons in Hall as [Hk' Hall]. case_decide; constructor; auto.
Qed.

Lemma extract_wf config : dict_wf (extract_urls_from_config config).
Proof. apply (extract_fold_invariant [] config); [apply NoDup_nil_2|constructor]. Qed.

Lemma extract_keys_http config :
  Forall (fun kv => is_http kv = true) (extract_urls_from_config config).
Proof. apply (extract_fold_invariant [] config); [apply NoDup_nil_2|constructor]. Qed.

End dict_facts.

(** ** The classifier and the formatter *)

Lemma try_request_response (net : network) (url_ : str) (resp : ClientResponse) :
  net url_ = Returned resp ->
  try_request net url_
  = Returned
      (if in_range_200_300 (status resp) then
         match history resp with
         | [] => (Normal, None)
         | _ :: _ => (Moved, Some (url resp))
         end
       else (Unavailable, None)).
Proof.
  intros Hnet. unfold try_request. rewrite Hnet.
  destruct (in_range_200_300 (status resp)); [|done].
  by destruct (history resp).
Qed.

Lemma try_request_coupling (net : network) (url_ : str)
    (status_ : SiteStatus) (redirect_url : option str) :
  try_request net url_ = Returned (status_, redirect_url) ->
  (status_ = Moved /\ is_Some redirect_url)
  \/ (status_ <> Moved /\ redirect_url = None).
Proof.
  intros Htry. destruct (net url_) as [resp|e] eqn:Hnet.
  - rewrite (try_request_response net url_ resp Hnet) in Htry.
    destruct (in_range_200_300 (status resp)), (history resp);
      simplify_eq; eauto.
  - unfold try_request in Htry. rewrite Hnet in Htry.
    destruct e; simplify_eq. eauto.
Qed.

Lemma try_request_handled (net : network) (url_ : str) :
  handled (net url_) -> exists r, try_request net url_ = Returned r.
Proof.
  intros Hh. destruct (net url_) as [resp|e] eqn:Hnet.
  - rewrite (try_request_response net url_ resp Hnet). eauto.
  - unfold try_request. rewrite Hnet. destruct e; simpl in Hh; [done| |done]. eauto.
Qed.

Lemma request_action_handled (net : network) (url_ : str) :
  handled (net url_) -> exists r, request_action net url_ = Returned r.
Proof.
  intros [r Hr]%try_request_handled. unfold request_action. rewrite Hr. simpl. eauto.
Qed.

(** ** [gather] *)

Section gather_facts.
Context {A : Type}.
Implicit Types (aws : list (outcome A)) (completion : list nat).

Lemma first_raised_None aws :
  first_raised aws = None <-> Forall (fun o => exists a, o = Returned a) aws.
Proof.
  induction aws as [|[a|e] aws IH]; simpl.
  - split; [constructor|done].
  - rewrite IH, Forall_cons. split; [eauto|tauto].
  - split; [done|]. intros [[a [=]] _]%Forall_cons.
Qed.

Lemma gather_Returned completion aws (vs : list A) :
  aws = Returned <$> vs -> gather completion aws = Returned vs.
Proof.
  intros ->. unfold gather.
  assert (first_raised (omap (fun i => (Returned <$> vs) !! i) completion
                          ++ (Returned <$> vs)) = None) as ->.
  { apply first_raised_None, Forall_forall. intros o [Ho|Ho]%elem_of_app.
    - apply list_elem_of_omap in Ho as (i & _ & Hi).
      apply list_lookup_fmap_Some in Hi as (a & -> & _). eauto.
    - apply list_elem_of_fmap in Ho as (a & -> & _). eauto. }
  f_equal. induction vs as [|v vs IH]; csimpl; [done|]. by f_equal.
Qed.

Lemma gather_Raised completion aws (e : exn) :
  Raised e ∈ aws -> exists e', gather completion aws = Raised e'.
Proof.
  intros Hin. unfold gather.
  destruct (first_raised _) as [e'|] eqn:Hfr; [eauto|].
  rewrite first_raised_None, Forall_app, !Forall_forall in Hfr.
  destruct Hfr as [_ Hfr]. by destruct (Hfr _ Hin) as [a [=]].
Qed.

Lemma gather_cases completion aws :
  match mapM returned_value aws with
  | Some vs => gather completion aws = Returned vs
  | None => exists e, gather completion aws = Raised e
  end.
Proof.
  destruct (mapM returned_value aws) as [vs|] eqn:Hm.
  - apply gather_Returned. apply mapM_Some in Hm.
    induction Hm as [|[a|e] v aws vs Hv _ IH]; simplify_eq/=; [done|]. by f_equal.
  - apply mapM_None in Hm. apply Exists_exists in Hm as ([a|e] & Hin & Hx); [done|].
    by apply (gather_Raised _ _ e).
Qed.

End gather_facts.

(** ** The run of [main] *)

#[local] Arguments gather : simpl never.
#[local] Arguments lit : simpl never.

Lemma entry_gather (net : network) (completion : list nat) (key truelink : str) :
  match a ← returned_value (request_action net key);
        b ← returned_value (request_action net truelink);
        Some [a; b] with
  | Some rows =>
      gather completion [request_action net key; request_action net truelink]
      = Returned rows
  | None =>
      exists e, gather completion [request_action net key; request_action net truelink]
                = Raised e
  end.
Proof.
  pose proof (gather_cases completion
                [request_action net key; request_action net truelink]) as H.
  by destruct (request_action net key), (request_action net truelink).
Qed.

Lemma entry_checks_cons (sched : schedule) (net : network)
    (key : str) (value : SectionProxy) (items : list (str * SectionProxy)) :
  entry_checks sched net ((key, value) :: items)
  = (truelink ← getitem_truelink value;
     rest ← entry_checks sched net items;
     mret (gather (inner sched key)
             [request_action net key; request_action net truelink] :: rest)).
Proof.
  unfold entry_checks. simpl.
  by destruct (getitem_truelink value).
Qed.

Lemma entry_checks_cases (sched : schedule) (net : network)
    (items : list (str * SectionProxy)) :
  match mapM (entry_rows net) items with
  | Some raw => entry_checks sched net items = Returned (Returned <$> raw)
  | None =>
      (exists e, entry_checks sched net items = Raised e)
      \/ (exists aws e, entry_checks sched net items = Returned aws /\ Raised e ∈ aws)
  end.
Proof.
  induction items as [|[key value] items IH]; [done|].
  rewrite entry_checks_cons.
  change (mapM (entry_rows net) ((key, value) :: items))
    with (rows ← (truelink ← returned_value (getitem_truelink value);
                  a ← returned_value (request_action net key);
                  b ← returned_value (request_action net truelink);
                  Some [a; b]);
          raw ← mapM (entry_rows net) items;
          Some (rows :: raw)).
  destruct (getitem_truelink value) as [truelink|e0]; simpl; [|eauto].
  pose proof (entry_gather net (inner sched key) key truelink) as Hg.
  destruct (request_action net key) as [a|ea], (request_action net truelink) as [b|eb];
    simpl in Hg |- *.
  1:{ rewrite Hg.
      destruct (mapM (entry_rows net) items) as [raw|]; simpl.
      - by rewrite IH.
      - destruct IH as [[e ->]|(aws & e & -> & Hin)]; simpl; [eauto|].
        right. exists (Returned [a; b] :: aws), e. split; [done|by right]. }
  all: destruct Hg as [e Hg]; rewrite Hg.
  all: destruct (entry_checks sched net items) as [aws|e']; simpl; [|eauto].
  all: right; exists (Raised e :: aws), e; split; [done|left].
Qed.

Lemma main_cases (sched : schedule) (net : network) (config : dict SectionProxy) :
  match mapM (entry_rows net) (extract_urls_from_config config) with
  | Some raw => main sched net config = mkRun (report raw) (Returned ())
  | None => exists e, main sched net config = mkRun [] (Raised e)
  end.
Proof.
  unfold main, dict_items.
  pose proof (entry_checks_cases sched net (extract_urls_from_config config)) as H.
  destruct (mapM (entry_rows net) (extract_urls_from_config config)) as [raw|].
  - rewrite H. cbn. by rewrite (gather_Returned _ _ raw).
  - destruct H as [[e ->]|(aws & e & -> & Hin)]; cbn; [eauto|].
    destruct (gather_Raised (outer sched) aws e Hin) as [e' ->]. eauto.
Qed.

(** The first lookup of [truelink] that raises ends the building of the
    awaitables. *)
Lemma entry_checks_Raised (sched : schedule) (net : network)
    (before after : list (str * SectionProxy)) (key : str) (value : SectionProxy)
    (e : exn) :
  Forall (fun kv => exists truelink, getitem_truelink kv.2 = Returned truelink) before ->
  getitem_truelink value = Raised e ->
  entry_checks sched net (before ++ (key, value) :: after) = Raised e.
Proof.
  intros Hbefore Hvalue.
  induction Hbefore as [|[k v] before [truelink Hv] _ IH].
  - rewrite app_nil_l, entry_checks_cons. by rewrite Hvalue.
  - rewrite <-app_comm_cons, entry_checks_cons.
    simpl in Hv. rewrite Hv. simpl. by rewrite IH.
Qed.

Lemma entry_checks_inv (sched : schedule) (net : network)
    (items : list (str * SectionProxy)) :
  match entry_checks sched net items with
  | Returned aws =>
      Forall2
        (fun kv aw =>
           exists truelink,
             getitem_truelink kv.2 = Returned truelink
             /\ aw = gather (inner sched kv.1)
                       [request_action net kv.1; request_action net truelink])
        items aws
  | Raised e => Exists (fun kv => getitem_truelink kv.2 = Raised e) items
  end.
Proof.
  induction items as [|[key value] items IH]; [by constructor|].
  rewrite entry_checks_cons.
  destruct (getitem_truelink value) as [truelink|e0] eqn:Htl; simpl.
  - destruct (entry_checks sched net items) as [aws|e]; simpl.
    + constructor; [|done]. exists truelink. split; [exact Htl|done].
    + by right.
  - by left.
Qed.

Lemma first_raised_Some {A} (aws : list (outcome A)) (e : exn) :
  first_raised aws = Some e -> Raised e ∈ aws.
Proof.
  induction aws as [|[a|e'] aws IH]; simpl; [done| |].
  - intros H. right. auto.
  - intros [= ->]. left.
Qed.

Lemma gather_Raised_inv {A} (completion : list nat) (aws : list (outcome A)) (e : exn) :
  gather completion aws = Raised e -> Raised e ∈ aws.
Proof.
  unfold gather. destruct (first_raised _) as [e'|] eqn:Hfr; [|done].
  intros [= ->]. apply first_raised_Some, elem_of_app in Hfr as [Hin|Hin]; [|done].
  apply list_elem_of_omap in Hin as (i & _ & Hi). by eapply list_elem_of_lookup_2.
Qed.

Lemma request_action_Raised (net : network) (url_ : str) (e : exn) :
  request_action net url_ = Raised e ->
  net url_ = Raised e /\ ~ is_ClientResponseError e.
Proof.
  unfold request_action. destruct (try_request net url_) as [r|e'] eqn:Htry; [done|].
  intros [= ->]. unfold try_request in Htry.
  destruct (net url_) as [resp|e'].
  - destruct (in_range_200_300 (status resp)); [|done]. by destruct (truthy _).
  - destruct e'; simplify_eq; eauto.
Qed.

Lemma request_action_Returned (net : network) (url_ : str) (row : option str) :
  request_action net url_ = Returned row -> handled (net url_).
Proof.
  unfold request_action, try_request, handled.
  destruct (net url_) as [resp|[]]; done.
Qed.

Lemma entry_rows_is_Some (net : network) (kv : str * SectionProxy) :
  is_Some (entry_rows net kv)
  <-> exists truelink,
        getitem_truelink kv.2 = Returned truelink
        /\ handled (net kv.1) /\ handled (net truelink).
Proof.
  unfold entry_rows. split.
  - intros [rows Hrows].
    destruct (getitem_truelink kv.2) as [truelink|]; [|done]. simpl in Hrows.
    destruct (request_action net kv.1) as [a|] eqn:Ha; [|done].
    destruct (request_action net truelink) as [b|] eqn:Hb; [|done].
    exists truelink. eauto using request_action_Returned.
  - intros (truelink & -> & Hkey & Htl). simpl.
    destruct (request_action_handled net kv.1 Hkey) as [a ->].
    destruct (request_action_handled net truelink Htl) as [b ->]. by eexists.
Qed.

Lemma entry_rows_all_is_Some (net : network) (items : list (str * SectionProxy)) :
  is_Some (mapM (entry_rows net) items)
  <-> Forall (fun kv => exists truelink, getitem_truelink kv.2 = Returned truelink)
        items
      /\ Forall (fun u => handled (net u)) (checked_urls items).
Proof.
  rewrite mapM_is_Some. unfold checked_urls, dict_items.
  rewrite Forall_bind, <-Forall_and. apply Forall_iff. intros [key value].
  unfold compose. rewrite entry_rows_is_Some. simpl. split.
  - intros (truelink & Htl & Hkey & Hh). rewrite Htl. split; [by eexists|].
    by repeat constructor.
  - intros [[truelink Htl] Hh]. rewrite Htl in Hh. simpl in Hh.
    exists truelink. apply Forall_cons in Hh as [Hkey Hh].
    apply Forall_cons in Hh as [Hh _]. done.
Qed.

Lemma rows_of_checked_urls (net : network) (items : list (str * SectionProxy))
    (raw : list (list (option str))) :
  mapM (entry_rows net) items = Some raw ->
  rows_of raw = omap (row_of net) (checked_urls items).
Proof.
  intros Hraw%mapM_Some. unfold rows_of, checked_urls, dict_items.
  induction Hraw as [|[key value] rows items raw Hrows _ IH]; [done|].
  rewrite bind_cons, omap_app. simpl. rewrite omap_app, IH. f_equal.
  unfold entry_rows, row_of in *. simpl in Hrows.
  destruct (getitem_truelink value) as [truelink|]; [|done]. simpl in Hrows.
  destruct (request_action net key) as [a|] eqn:Ha; [|done].
  destruct (request_action net truelink) as [b|] eqn:Hb; [|done].
  simplify_eq/=. rewrite Hb. by destruct a, b.
Qed.

(** The literals of the source, as code points. *)
Example literal_code_points :
  lit "| 301 轉址 | "%string = [124; 32; 51; 48; 49; 32; 36681; 22336; 32; 124; 32]%N
  /\ lit "| 404 失效 | "%string = [124; 32; 52; 48; 52; 32; 22833; 25928; 32; 124; 32]%N
  /\ title_row = [124; 32; 29376; 24907; 32; 124; 32; 32178; 22336; 32; 124; 32;
                  36681; 22336; 32178; 22336; 32; 124]%N.
Proof. by vm_compute. Qed.

(** ** The report *)

Lemma concat_Permutation {A} (l1 l2 : list (list A)) :
  l1 ≡ₚ l2 -> concat l1 ≡ₚ concat l2.
Proof.
  induction 1 as [|x l1 l2 _ IH|x y l|l1 l2 l3 _ IH1 _ IH2]; simpl.
  - done.
  - by rewrite IH.
  - rewrite !app_assoc. f_equiv. apply Permutation_app_comm.
  - by rewrite IH1.
Qed.

Lemma rows_of_Permutation (raw1 raw2 : list (list (option str))) :
  raw1 ≡ₚ raw2 -> rows_of raw1 ≡ₚ rows_of raw2.
Proof. intros Hp. unfold rows_of. by rewrite (concat_Permutation _ _ Hp). Qed.

Lemma omap_filter_not_None (l : list (option str)) :
  omap id (filter (fun x => x <> None) l) = omap id l.
Proof.
  induction l as [|[r|] l IH]; [done| |].
  - rewrite filter_cons_True by done. csimpl. by f_equal.
  - rewrite filter_cons_False by (by intros []). done.
Qed.

(** The text printed: the two header rows, then the sorted rows. *)
Lemma report_rows (raw_response : list (list (option str))) :
  report raw_response
  = print (join newline
             (title_row :: separator_row :: list_sort (rows_of raw_response))).
Proof. unfold report, rows_of, list_insert_at. by rewrite omap_filter_not_None. Qed.

Lemma report_Permutation (raw1 raw2 : list (list (option str))) :
  rows_of raw1 ≡ₚ rows_of raw2 -> report raw1 = report raw2.
Proof. intros Hp. by rewrite !report_rows, (list_sort_Permutation_eq _ _ Hp). Qed.

(** ** The rows of a run *)

Lemma mapM_omap {A B} (f : A -> option B) (l : list A) (k : list B) :
  mapM f l = Some k -> k = omap f l.
Proof.
  intros Hm%mapM_Some. induction Hm as [|x y l k Hxy _ IH]; simpl; [done|].
  rewrite Hxy. by f_equal.
Qed.

Lemma mapM_Permutation {A B} (f : A -> option B) (l1 l2 : list A) (k1 : list B) :
  l1 ≡ₚ l2 -> mapM f l1 = Some k1 -> exists k2, mapM f l2 = Some k2 /\ k1 ≡ₚ k2.
Proof.
  intros Hp Hm.
  assert (is_Some (mapM f l2)) as [k2 Hk2].
  { apply mapM_is_Some. rewrite <-Hp. apply mapM_is_Some. eauto. }
  exists k2. split; [done|].
  apply mapM_omap in Hm as ->. apply mapM_omap in Hk2 as ->. by rewrite Hp.
Qed.

Lemma mapM_Permutation_None {A B} (f : A -> option B) (l1 l2 : list A) :
  l1 ≡ₚ l2 -> mapM f l1 = None -> mapM f l2 = None.
Proof.
  intros Hp Hm. destruct (mapM f l2) as [k2|] eqn:Hk2; [|done].
  destruct (mapM_Permutation f l2 l1 k2) as (k1 & Hk1 & _); [done|done|congruence].
Qed.

(** * The claims *)

(** ** The request classifier and the formatter *)

(** C1. What the except clause of [try_request] misses: a request that
    raises an exception that is no client response error, as the connection
    error of a host that cannot be reached is, is not classified as
    [Unavailable]. [try_request] raises the exception, and a run that requests
    such a URL, as the key of an entry or as its [truelink], ends with an
    exception and prints nothing. *)
Theorem C1_connection_failure_aborts (sched : schedule) (net : network)
    (config : dict SectionProxy) (url_ : str) (e : exn) :
  net url_ = Raised e ->
  ~ is_ClientResponseError e ->
  url_ ∈ checked_urls (extract_urls_from_config config) ->
  try_request net url_ = Raised e
  /\ exists e', main sched net config = {| stdout := []; result := Raised e' |}.
Proof.
  intros Hnet Hclass Hchecked. split.
  - unfold try_request. rewrite Hnet. by destruct e.
  - pose proof (main_cases sched net config) as Hmain.
    destruct (mapM (entry_rows net) (extract_urls_from_config config))
      as [raw|] eqn:Hraw; [exfalso|done].
    assert (is_Some (mapM (entry_rows net) (extract_urls_from_config config)))
      as [_ Hhandled]%entry_rows_all_is_Some by (by eexists).
    rewrite Forall_forall in Hhandled. specialize (Hhandled url_ Hchecked).
    rewrite Hnet in Hhandled. by destruct e.
Qed.

Lemma C1_connection_failure_aborts_witness :
  try_request Sample.net Sample.unreachable_url
  = Raised (OtherException (lit "ClientConnectorError"%string))
  /\ exists e',
       main Sample.sched Sample.net
         ((Sample.unreachable_url, Sample.proxy (Sample.entry Sample.c_url))
            :: Sample.parsed)
       = {| stdout := []; result := Raised e' |}.
Proof.
  apply C1_connection_failure_aborts.
  - by vm_compute.
  - intros [].
  - apply (bool_decide_unpack _). by vm_compute.
Defined.

(** C2. A request that is answered with a status in 200..299 after at least
    one redirect makes [try_request] return [Moved] with the final URL,
    whatever the redirects were, and [interpret_result] gives the row
    [| 301 轉址 | url | final url |]. *)
Theorem C2_moved (net : network) (url_ : str) (resp : ClientResponse) :
  net url_ = Returned resp ->
  200 <= status resp < 300 ->
  (0 < length (history resp))%nat ->
  try_request net url_ = Returned (Moved, Some (url resp))
  /\ interpret_result url_ (Moved, Some (url resp))
     = Some (lit "| 301 轉址 | "%string ++ url_ ++ lit " | "%string
               ++ url resp ++ lit " |"%string).
Proof.
  intros Hnet Hstatus Hhist. split; [|done].
  rewrite (try_request_response net url_ resp Hnet).
  unfold in_range_200_300.
  rewrite (proj2 (Z.leb_le _ _)), (proj2 (Z.ltb_lt _ _)) by lia.
  destruct (history resp); [simpl in Hhist; lia|done].
Qed.

Lemma C2_moved_witness :
  try_request Sample.net Sample.a_url = Returned (Moved, Some Sample.a_new_url)
  /\ interpret_result Sample.a_url (Moved, Some Sample.a_new_url)
     = Some (lit "| 301 轉址 | http://a.example | https://a.example/new |"%string).
Proof.
  destruct (C2_moved Sample.net Sample.a_url
              (mkClientResponse 200
                 [mkClientResponse 301 [] Sample.a_url;
                  mkClientResponse 302 [] (lit "https://a.example"%string)]
                 Sample.a_new_url)) as [Htry Hrow].
  - by vm_compute.
  - simpl; lia.
  - simpl; lia.
  - split; [exact Htry|by vm_compute].
Defined.

(** C3. A request that is answered with a status in 200..299 without any
    redirect makes [try_request] return [(Normal, None)], for which
    [interpret_result] gives no row. *)
Theorem C3_normal (net : network) (url_ : str) (resp : ClientResponse) :
  net url_ = Returned resp ->
  200 <= status resp < 300 ->
  history resp = [] ->
  try_request net url_ = Returned (Normal, None)
  /\ interpret_result url_ (Normal, None) = None
  /\ request_action net url_ = Returned None.
Proof.
  intros Hnet Hstatus Hhist.
  assert (try_request net url_ = Returned (Normal, None)) as Htry.
  { rewrite (try_request_response net url_ resp Hnet).
    unfold in_range_200_300.
    rewrite (proj2 (Z.leb_le _ _)), (proj2 (Z.ltb_lt _ _)) by lia.
    by rewrite Hhist. }
  split_and!; [done|done|]. unfold request_action. by rewrite Htry.
Qed.

Lemma C3_normal_witness :
  try_request Sample.net Sample.c_url = Returned (Normal, None)
  /\ interpret_result Sample.c_url (Normal, None) = None
  /\ request_action Sample.net Sample.c_url = Returned None.
Proof.
  apply (C3_normal Sample.net Sample.c_url (mkClientResponse 200 [] Sample.c_url)).
  - by vm_compute.
  - simpl; lia.
  - reflexivity.
Defined.

(** C7. In the pair that [try_request] returns, the redirect target is there
    exactly when the status is [Moved]. *)
Theorem C7_redirect_iff_moved (net : network) (url_ : str)
    (status_ : SiteStatus) (redirect_url : option str) :
  try_request net url_ = Returned (status_, redirect_url) ->
  (is_Some redirect_url <-> status_ = Moved)
  /\ (status_ = Normal \/ status_ = Unavailable -> redirect_url = None).
Proof.
  intros Htry.
  destruct (try_request_coupling net url_ status_ redirect_url Htry)
    as [[-> Hsome]|[Hne ->]].
  - split; [done|]. by intros [|].
  - split; [|done]. split; [by intros ?%is_Some_None|done].
Qed.

Lemma C7_redirect_iff_moved_witness :
  (is_Some (Some Sample.a_new_url) <-> Moved = Moved)
  /\ (Moved = Normal \/ Moved = Unavailable -> Some Sample.a_new_url = None).
Proof.
  apply (C7_redirect_iff_moved Sample.net Sample.a_url). by vm_compute.
Defined.

(** C9. [interpret_result] formats [(Moved, None)] as well, with the text
    [None] in the last column; [try_request] never returns that pair. *)
Theorem C9_moved_without_target (url_ : str) :
  interpret_result url_ (Moved, None)
  = Some (lit "| 301 轉址 | "%string ++ url_ ++ lit " | None |"%string)
  /\ (forall (net : network) (u : str), try_request net u <> Returned (Moved, None)).
Proof.
  split; [done|].
  intros net u Htry.
  destruct (try_request_coupling net u Moved None Htry) as [[_ [? [=]]]|[? _]]; done.
Qed.

(** ** The extractor *)

Lemma filter_all {A} (P : A -> Prop) `{forall x, Decision (P x)} (l : list A) :
  Forall P l -> filter P l = l.
Proof.
  induction 1 as [|x l Hx _ IH]; [done|].
  rewrite filter_cons_True by done. by f_equal.
Qed.

(** C4. On a configuration, [extract_urls_from_config] returns the items
    whose key starts with [http], in their order, and no other; the value of
    a key that is kept is the value it had, so each of the five fields reads
    the same. *)
Theorem C4_extract_keeps_http_entries (config : dict SubscribedUrl) :
  dict_wf config ->
  extract_urls_from_config config
  = filter (fun kv => startswith kv.1 (lit "http"%string) = true) (dict_items config)
  /\ (forall k : str,
         dict_get k (extract_urls_from_config config)
         = if startswith k (lit "http"%string) then dict_get k config else None)
  /\ (forall (k : str) (v : SubscribedUrl),
         dict_get k (extract_urls_from_config config) = Some v ->
         exists v', dict_get k config = Some v'
                    /\ Forall (fun field => dict_get field v = dict_get field v')
                         SubscribedUrl_fields).
Proof.
  intros Hwf.
  assert (forall k : str,
             dict_get k (extract_urls_from_config config)
             = if startswith k (lit "http"%string) then dict_get k config else None)
    as Hget.
  { intros k. rewrite (extract_filter config Hwf), (dict_get_filter is_http k config Hwf).
    unfold is_http. simpl.
    destruct (dict_get k config); simpl; by destruct (startswith k _). }
  split_and!; [by apply extract_filter|done|].
  intros k v Hv. rewrite Hget in Hv. exists v.
  destruct (startswith k _); [|done]. split; [done|].
  apply Forall_forall. done.
Qed.

Lemma C4_extract_keeps_http_entries_witness :
  extract_urls_from_config Sample.config
  = [(Sample.d_url, Sample.entry Sample.c_url);
     (Sample.b_url, Sample.entry Sample.b_url);
     (Sample.a_url, Sample.entry Sample.a_new_url)]
  /\ dict_get (lit "Planet"%string) (extract_urls_from_config Sample.config) = None
  /\ dict_get Sample.b_url (extract_urls_from_config Sample.config)
     = Some (Sample.entry Sample.b_url).
Proof.
  assert (dict_wf Sample.config) as Hwf.
  { unfold dict_wf, dict_keys. apply (bool_decide_unpack _). by vm_compute. }
  destruct (C4_extract_keeps_http_entries Sample.config Hwf) as (Hfilter & Hget & _).
  split_and!.
  - rewrite Hfilter. by vm_compute.
  - rewrite Hget. by vm_compute.
  - rewrite Hget. by vm_compute.
Defined.

(** C8. [extract_urls_from_config] is idempotent: every key that it keeps
    starts with [http], so a second pass keeps everything. *)
Theorem C8_extract_idempotent {V : Type} (config : dict V) :
  extract_urls_from_config (extract_urls_from_config config)
  = extract_urls_from_config config
  /\ Forall (fun kv => startswith kv.1 (lit "http"%string) = true)
       (extract_urls_from_config config).
Proof.
  split; [|apply extract_keys_http].
  rewrite (extract_filter (extract_urls_from_config config)) by apply extract_wf.
  apply filter_all, extract_keys_http.
Qed.

(** ** The orchestrator *)

(** A run that ends normally has printed the report of the rows of its
    entries. *)
Lemma main_returned (sched : schedule) (net : network) (config : dict SectionProxy) :
  result (main sched net config) = Returned () ->
  exists raw,
    mapM (entry_rows net) (extract_urls_from_config config) = Some raw
    /\ stdout (main sched net config) = report raw.
Proof.
  intros Hres. pose proof (main_cases sched net config) as Hmain.
  destruct (mapM (entry_rows net) (extract_urls_from_config config)) as [raw|].
  - exists raw. by rewrite Hmain.
  - destruct Hmain as [e Hmain]. by rewrite Hmain in Hres.
Qed.

(** C5. Whatever the results of the checks, the text printed is the title
    row, the separator row and then the rows that are there (a check with
    status [Normal], and only such a check, leaves none), in non-decreasing
    order, each line ended by a newline. *)
Theorem C5_report_headers_then_sorted_rows (raw_response : list (list (option str))) :
  (exists rows : list str,
      report raw_response
      = join newline (title_row :: separator_row :: rows) ++ newline
      /\ Sorted Str.le rows
      /\ rows ≡ₚ omap id (concat raw_response))
  /\ (forall (url_ : str) (response : SiteStatus * option str),
         interpret_result url_ response = None <-> response.1 = Normal).
Proof.
  split.
  - exists (list_sort (rows_of raw_response)). split_and!.
    + by rewrite report_rows.
    + apply list_sort_Sorted.
    + apply list_sort_Permutation.
  - intros url_ [[] redirect_url]; simpl; split; done.
Qed.

(** C6. With the same answers of the network, two runs on the same entries,
    taken in any order and with the requests completing in any order, print
    the same text: the report depends on the rows only, not on their
    order. *)
Theorem C6_output_independent_of_order (net : network)
    (config config' : dict SectionProxy) (sched sched' : schedule) :
  dict_wf config ->
  config ≡ₚ config' ->
  stdout (main sched net config) = stdout (main sched' net config')
  /\ (forall raw raw' : list (list (option str)),
         omap id (concat raw) ≡ₚ omap id (concat raw') -> report raw = report raw').
Proof.
  intros Hwf Hperm. split; [|apply report_Permutation].
  assert (dict_wf config') as Hwf'.
  { unfold dict_wf, dict_keys in *. by rewrite <-Hperm. }
  pose proof (main_cases sched net config) as Hmain.
  pose proof (main_cases sched' net config') as Hmain'.
  rewrite (extract_filter config Hwf) in Hmain.
  rewrite (extract_filter config' Hwf') in Hmain'.
  assert (filter (fun kv : str * SectionProxy => is_http kv = true) config
          ≡ₚ filter (fun kv => is_http kv = true) config') as Hitems
    by (by rewrite Hperm).
  destruct (mapM (entry_rows net) (filter _ config)) as [raw|] eqn:Hraw.
  - destruct (mapM_Permutation _ _ _ raw Hitems Hraw) as (raw' & Hraw' & Hp).
    rewrite Hraw' in Hmain'. rewrite Hmain, Hmain'. simpl.
    by apply report_Permutation, rows_of_Permutation.
  - rewrite (mapM_Permutation_None _ _ _ Hitems Hraw) in Hmain'.
    destruct Hmain as [e ->], Hmain' as [e' ->]. done.
Qed.

Lemma C6_output_independent_of_order_witness :
  stdout (main Sample.sched Sample.net Sample.parsed)
  = stdout (main (mkSchedule [] (fun _ => [])) Sample.net (reverse Sample.parsed)).
Proof.
  refine (proj1 (C6_output_independent_of_order Sample.net Sample.parsed
                   (reverse Sample.parsed) Sample.sched (mkSchedule [] (fun _ => [])) _ _)).
  - unfold dict_wf, dict_keys. apply (bool_decide_unpack _). by vm_compute.
  - by rewrite reverse_Permutation.
Defined.

(** C10. Nothing removes duplicates: the key of an entry and its [truelink]
    are each requested and formatted, so an entry whose [truelink] is its
    key, and whose URL is not [Normal], has its row twice in the text
    printed. *)
Theorem C10_no_deduplication (sched : schedule) (net : network)
    (config : dict SectionProxy) (key : str) (value : SectionProxy)
    (response : SiteStatus * option str) :
  (key, value) ∈ extract_urls_from_config config ->
  getitem_truelink value = Returned key ->
  try_request net key = Returned response ->
  response.1 <> Normal ->
  result (main sched net config) = Returned () ->
  exists (row : str) (rows : list str),
    interpret_result key response = Some row
    /\ stdout (main sched net config)
       = join newline (title_row :: separator_row :: rows) ++ newline
    /\ (2 <= length (filter (fun r => r = row) rows))%nat.
Proof.
  intros Hin Htruelink Htry Hstatus Hres.
  destruct (interpret_result key response) as [row|] eqn:Hrow.
  2:{ by destruct response as [[] ?]. }
  destruct (main_returned sched net config Hres) as (raw & Hraw & Hout).
  exists row, (list_sort (rows_of raw)). split_and!; [done|by rewrite Hout, report_rows|].
  rewrite (list_sort_Permutation (rows_of raw)).
  apply mapM_Some in Hraw.
  apply list_elem_of_lookup in Hin as [i Hi].
  destruct (Forall2_lookup_l _ _ _ _ _ Hraw Hi) as (entry & Hentry & Hrows).
  unfold entry_rows, request_action in Hrows. simpl in Hrows.
  rewrite Htruelink in Hrows. simpl in Hrows.
  rewrite Htry in Hrows. simpl in Hrows. rewrite Hrow in Hrows. simplify_eq.
  apply list_elem_of_lookup_2, list_elem_of_split in Hentry as (raw1 & raw2 & ->).
  unfold rows_of. rewrite concat_app, omap_app, filter_app, length_app. simpl.
  rewrite !filter_cons_True by done. simpl. lia.
Qed.

Lemma C10_no_deduplication_witness :
  exists (row : str) (rows : list str),
    interpret_result Sample.b_url (Unavailable, None) = Some row
    /\ stdout (main Sample.sched Sample.net Sample.parsed)
       = join newline (title_row :: separator_row :: rows) ++ newline
    /\ (2 <= length (filter (fun r => r = row) rows))%nat.
Proof.
  apply (C10_no_deduplication Sample.sched Sample.net Sample.parsed
           Sample.b_url (Sample.proxy (Sample.entry Sample.b_url))).
  - apply (bool_decide_unpack _). by vm_compute.
  - by vm_compute.
  - by vm_compute.
  - done.
  - by vm_compute.
Defined.

(** The report of the sample run. *)
Example main_sample_run :
  main Sample.sched Sample.net Sample.parsed
  = {| stdout :=
         join newline
           [lit "| 狀態 | 網址 | 轉址網址 |"%string;
            lit "| --- | --- | ------ |"%string;
            lit "| 301 轉址 | http://a.example | https://a.example/new |"%string;
            lit "| 404 失效 | http://b.example | |"%string;
            lit "| 404 失效 | http://b.example | |"%string;
            lit "| 404 失效 | http://d.example | |"%string]
         ++ newline;
       result := Returned () |}.
Proof. by vm_compute. Qed.

(** A request that fails to connect is not caught: the run ends with the
    exception and prints nothing. *)
Example main_connection_error :
  main Sample.sched Sample.net
    [(Sample.b_url, Sample.proxy (Sample.entry Sample.unreachable_url))]
  = {| stdout := [];
       result := Raised (OtherException (lit "ClientConnectorError"%string)) |}.
Proof. by vm_compute. Qed.

(** An entry without [truelink], in a parser whose DEFAULT section has none
    either, ends the run with [KeyError]. *)
Example main_missing_truelink :
  main Sample.sched Sample.net [(Sample.b_url, Sample.proxy [])]
  = {| stdout := []; result := Raised (KeyError (lit "truelink"%string)) |}.
Proof. by vm_compute. Qed.

(** An entry whose [truelink] cannot be interpolated ends the run with the
    interpolation error, although it has the field. *)
Example main_interpolation_error :
  main Sample.sched Sample.net [(Sample.b_url, Sample.percent_proxy)]
  = {| stdout := [];
       result := Raised (OtherException (lit "InterpolationSyntaxError"%string)) |}.
Proof. by vm_compute. Qed.

(** * Further properties of the code *)

(** ** [try_request] *)

(** X1. The only exceptions that leave [try_request] are those that
    [session.get] raised and that are no client response error; they leave it
    unchanged. *)
Theorem X1_try_request_raises_iff (net : network) (url_ : str) (e : exn) :
  try_request net url_ = Raised e
  <-> net url_ = Raised e /\ ~ is_ClientResponseError e.
Proof.
  unfold try_request. destruct (net url_) as [resp|e'].
  - split; [|by intros [[=] _]].
    destruct (in_range_200_300 (status resp)); [|done].
    by destruct (truthy _).
  - destruct e'; split; try (intros [= <-]; by eauto); try (by intros [[= <-] ?]).
Qed.

(** X2. Each verdict of [try_request] tells what the request did: [Normal]
    and [Moved] come from an answer with a status in 200..299, without and with
    redirects, and [Moved] carries the URL of that answer; [Unavailable] comes
    from an answer with another status or from a client response error. *)
Theorem X2_try_request_verdict_sound (net : network) (url_ : str)
    (status_ : SiteStatus) (redirect_url : option str) :
  try_request net url_ = Returned (status_, redirect_url) ->
  match status_ with
  | Normal =>
      exists resp, net url_ = Returned resp
                   /\ 200 <= status resp < 300 /\ history resp = []
  | Moved =>
      exists resp, net url_ = Returned resp
                   /\ 200 <= status resp < 300 /\ history resp <> []
                   /\ redirect_url = Some (url resp)
  | Unavailable =>
      (exists resp, net url_ = Returned resp /\ ~ (200 <= status resp < 300))
      \/ (exists request_url message,
             net url_ = Raised (ClientResponseError request_url message))
  end.
Proof.
  intros Htry. destruct (net url_) as [resp|e] eqn:Hnet.
  - rewrite (try_request_response net url_ resp Hnet) in Htry.
    unfold in_range_200_300 in Htry.
    destruct (Z.leb_spec 200 (status resp)), (Z.ltb_spec (status resp) 300);
      simpl in Htry;
      try (simplify_eq; left; exists resp; split; [done|lia]).
    destruct (history resp) eqn:Hh; simplify_eq; exists resp;
      split_and?; try done; try lia; by rewrite Hh.
  - unfold try_request in Htry. rewrite Hnet in Htry.
    destruct e; simplify_eq. right. eauto.
Qed.

Lemma X2_try_request_verdict_sound_witness :
  exists resp, Sample.net Sample.a_url = Returned resp
               /\ 200 <= status resp < 300 /\ history resp <> []
               /\ Some Sample.a_new_url = Some (url resp).
Proof.
  apply (X2_try_request_verdict_sound Sample.net Sample.a_url Moved
           (Some Sample.a_new_url)).
  by vm_compute.
Defined.

(** ** [interpret_result] *)

(** X3. A row tells the status it was made for: two results with the same
    row have the same status, and two unavailable URLs with the same row are
    the same URL. *)
Theorem X3_row_determines_status (url1 url2 : str)
    (response1 response2 : SiteStatus * option str) :
  interpret_result url1 response1 = interpret_result url2 response2 ->
  response1.1 = response2.1
  /\ (response1.1 = Unavailable -> url1 = url2).
Proof.
  destruct response1 as [[] r1], response2 as [[] r2];
    unfold interpret_result; cbn [fst]; intros Hrow;
    try discriminate Hrow; try (split; [done|discriminate]).
  split; [done|intros _]. apply (inj Some) in Hrow.
  by apply app_inv_head, app_inv_tail in Hrow.
Qed.

Lemma X3_row_determines_status_witness :
  Unavailable = Unavailable /\ (Unavailable = Unavailable -> Sample.b_url = Sample.b_url).
Proof.
  apply (X3_row_determines_status Sample.b_url Sample.b_url
           (Unavailable, None) (Unavailable, Some Sample.a_url)).
  reflexivity.
Defined.

(** X13. A request that is answered with a status outside 200..299, or
    that raises a client response error, is classified [Unavailable] without
    a redirect target, and its check gives the row [| 404 失效 | url | |]. *)
Theorem X13_failed_request_is_unavailable (net : network) (url_ : str) :
  (exists resp, net url_ = Returned resp /\ ~ (200 <= status resp < 300))
  \/ (exists request_url message,
         net url_ = Raised (ClientResponseError request_url message)) ->
  try_request net url_ = Returned (Unavailable, None)
  /\ request_action net url_
     = Returned (Some (lit "| 404 失效 | "%string ++ url_ ++ lit " | |"%string)).
Proof.
  intros Hfail.
  assert (try_request net url_ = Returned (Unavailable, None)) as Htry.
  { destruct Hfail as [(resp & Hnet & Hstatus)|(u & m & Hnet)].
    - rewrite (try_request_response net url_ resp Hnet).
      unfold in_range_200_300.
      destruct (Z.leb_spec 200 (status resp)), (Z.ltb_spec (status resp) 300);
        try done.
      exfalso. apply Hstatus. lia.
    - unfold try_request. by rewrite Hnet. }
  split; [done|]. unfold request_action. by rewrite Htry.
Qed.

Lemma X13_failed_request_is_unavailable_witness :
  try_request Sample.net Sample.d_url = Returned (Unavailable, None)
  /\ request_action Sample.net Sample.d_url
     = Returned (Some (lit "| 404 失效 | "%string ++ Sample.d_url ++ lit " | |"%string)).
Proof.
  apply X13_failed_request_is_unavailable. right.
  exists Sample.d_url, (lit "TooManyRedirects"%string). by vm_compute.
Defined.

(** ** How a run of [main] ends *)

(** X4. The first extracted entry whose [value["truelink"]] raises ends the
    run with that exception ([KeyError] for a missing option, an
    interpolation error for a value that cannot be interpolated) and nothing
    is printed, whatever the network does and in whatever order the requests
    complete. *)
Theorem X4_truelink_lookup_failure_aborts (sched : schedule) (net : network)
    (config : dict SectionProxy)
    (before after : list (str * SectionProxy)) (key : str) (value : SectionProxy)
    (e : exn) :
  extract_urls_from_config config = before ++ (key, value) :: after ->
  Forall (fun kv => exists truelink, getitem_truelink kv.2 = Returned truelink) before ->
  getitem_truelink value = Raised e ->
  main sched net config = {| stdout := []; result := Raised e |}.
Proof.
  intros Hitems Hbefore Hvalue. unfold main, dict_items.
  by rewrite Hitems, (entry_checks_Raised sched net before after key value e).
Qed.

Lemma X4_truelink_lookup_failure_aborts_witness :
  main Sample.sched Sample.net
    [(Sample.a_url, Sample.proxy (Sample.entry Sample.c_url));
     (lit "Planet"%string, Sample.proxy []);
     (Sample.b_url, Sample.percent_proxy);
     (Sample.unreachable_url, Sample.proxy [])]
  = {| stdout := [];
       result := Raised (OtherException (lit "InterpolationSyntaxError"%string)) |}.
Proof.
  apply (X4_truelink_lookup_failure_aborts _ _ _
           [(Sample.a_url, Sample.proxy (Sample.entry Sample.c_url))]
           [(Sample.unreachable_url, Sample.proxy [])]
           Sample.b_url Sample.percent_proxy).
  - by vm_compute.
  - repeat constructor. by eexists.
  - reflexivity.
Defined.

(** X5. A run that ends with an exception has printed nothing, and the
    exception is either one that [value["truelink"]] raised for an extracted
    entry, or one that [session.get] raised for one of the URLs requested and
    that is no client response error. *)
Theorem X5_exception_origin (sched : schedule) (net : network)
    (config : dict SectionProxy) (e : exn) :
  result (main sched net config) = Raised e ->
  stdout (main sched net config) = []
  /\ ((exists kv, kv ∈ extract_urls_from_config config
                  /\ getitem_truelink kv.2 = Raised e)
      \/ (exists u, u ∈ checked_urls (extract_urls_from_config config)
                    /\ net u = Raised e /\ ~ is_ClientResponseError e)).
Proof.
  unfold main, dict_items.
  pose proof (entry_checks_inv sched net (extract_urls_from_config config)) as Hinv.
  destruct (entry_checks sched net (extract_urls_from_config config)) as [aws|e'];
    simpl.
  - destruct (gather (outer sched) aws) as [raw|e'] eqn:Hg; simpl; [done|].
    intros [= ->]. split; [done|]. right.
    apply gather_Raised_inv, list_elem_of_lookup in Hg as [i Hi].
    destruct (Forall2_lookup_r _ _ _ _ _ Hinv Hi)
      as ([key value] & Hkv & truelink & Htl & Haw).
    simpl in Htl, Haw. symmetry in Haw. apply gather_Raised_inv in Haw.
    assert (exists u, u ∈ [key; truelink] /\ request_action net u = Raised e)
      as (u & Hu & Hra).
    { apply elem_of_cons in Haw as [Haw|Haw].
      - exists key. split; [left|done].
      - apply list_elem_of_singleton in Haw. exists truelink. split; [right; left|done]. }
    exists u. split; [|by apply request_action_Raised].
    unfold checked_urls, dict_items. apply list_elem_of_bind.
    exists (key, value). split; [|by eapply list_elem_of_lookup_2].
    simpl. by rewrite Htl.
  - intros [= ->]. split; [done|]. left. by apply Exists_exists.
Qed.

Lemma X5_exception_origin_witness :
  stdout (main Sample.sched Sample.net
            [(Sample.b_url, Sample.proxy (Sample.entry Sample.unreachable_url))])
  = []
  /\ ((exists kv,
          kv ∈ extract_urls_from_config
                 [(Sample.b_url, Sample.proxy (Sample.entry Sample.unreachable_url))]
          /\ getitem_truelink kv.2
             = Raised (OtherException (lit "ClientConnectorError"%string)))
      \/ (exists u,
             u ∈ checked_urls
                   (extract_urls_from_config
                      [(Sample.b_url, Sample.proxy (Sample.entry Sample.unreachable_url))])
             /\ Sample.net u = Raised (OtherException (lit "ClientConnectorError"%string))
             /\ ~ is_ClientResponseError
                    (OtherException (lit "ClientConnectorError"%string)))).
Proof. apply X5_exception_origin. by vm_compute. Defined.

(** X6. A run ends normally exactly when [value["truelink"]] returns for
    each extracted entry and each URL requested is answered, with whatever
    status, or raises a client response error. *)
Theorem X6_ends_normally_iff (sched : schedule) (net : network)
    (config : dict SectionProxy) :
  result (main sched net config) = Returned ()
  <-> Forall (fun kv => exists truelink, getitem_truelink kv.2 = Returned truelink)
        (extract_urls_from_config config)
      /\ Forall (fun u => handled (net u))
           (checked_urls (extract_urls_from_config config)).
Proof.
  rewrite <-entry_rows_all_is_Some.
  pose proof (main_cases sched net config) as Hmain.
  destruct (mapM (entry_rows net) (extract_urls_from_config config)) as [raw|].
  - rewrite Hmain. simpl. split; [by eexists|done].
  - destruct Hmain as [e ->]. simpl. split; [done|by intros [? [=]]].
Qed.

(** X7. A run that ends normally prints the two header rows and then, in
    sorted order, the row of each URL requested that has one: a URL requested
    several times has its row as many times. *)
Theorem X7_printed_rows (sched : schedule) (net : network)
    (config : dict SectionProxy) :
  result (main sched net config) = Returned () ->
  stdout (main sched net config)
  = join newline
      (title_row :: separator_row
         :: list_sort
              (omap (row_of net) (checked_urls (extract_urls_from_config config))))
    ++ newline.
Proof.
  intros (raw & Hraw & ->)%main_returned.
  by rewrite report_rows, (rows_of_checked_urls net _ raw Hraw).
Qed.

Lemma X7_printed_rows_witness :
  stdout (main Sample.sched Sample.net Sample.parsed)
  = join newline
      (title_row :: separator_row
         :: list_sort
              (omap (row_of Sample.net)
                 (checked_urls (extract_urls_from_config Sample.parsed))))
    ++ newline.
Proof. apply X7_printed_rows. by vm_compute. Defined.

(** X8. When [value["truelink"]] returns for each extracted entry and each
    URL requested is answered with a status in 200..299 without redirect, the
    run prints the two header rows and nothing else; so does a run on a
    configuration without any URL. *)
Theorem X8_all_normal_prints_headers_only (sched : schedule) (net : network)
    (config : dict SectionProxy) :
  Forall (fun kv => exists truelink, getitem_truelink kv.2 = Returned truelink)
    (extract_urls_from_config config) ->
  Forall (fun u => exists resp, net u = Returned resp
                                /\ 200 <= status resp < 300 /\ history resp = [])
    (checked_urls (extract_urls_from_config config)) ->
  main sched net config
  = {| stdout := title_row ++ newline ++ separator_row ++ newline;
       result := Returned () |}.
Proof.
  intros Htl Hnormal.
  assert (omap (row_of net) (checked_urls (extract_urls_from_config config)) = [])
    as Hrows.
  { induction Hnormal as [|u us (resp & Hnet & Hstatus & Hhist) _ IH]; [done|].
    simpl. unfold row_of at 1, request_action.
    rewrite (try_request_response net u resp Hnet), Hhist.
    unfold in_range_200_300.
    rewrite (proj2 (Z.leb_le _ _)), (proj2 (Z.ltb_lt _ _)) by lia. done. }
  assert (is_Some (mapM (entry_rows net) (extract_urls_from_config config)))
    as [raw Hraw].
  { apply entry_rows_all_is_Some. split; [done|].
    eapply Forall_impl; [exact Hnormal|]. intros u (resp & -> & _). done. }
  pose proof (main_cases sched net config) as Hmain. rewrite Hraw in Hmain.
  rewrite Hmain, report_rows, (rows_of_checked_urls net _ raw Hraw), Hrows.
  by vm_compute.
Qed.

Lemma X8_all_normal_prints_headers_only_witness :
  main Sample.sched Sample.net
    [(lit "Planet"%string, Sample.proxy []);
     (Sample.c_url, Sample.proxy (Sample.entry Sample.a_new_url))]
  = {| stdout := title_row ++ newline ++ separator_row ++ newline;
       result := Returned () |}.
Proof.
  apply X8_all_normal_prints_headers_only.
  - repeat constructor. by eexists.
  - repeat constructor.
    + exists (mkClientResponse 200 [] Sample.c_url).
      split; [by vm_compute|]. simpl. split; [lia|done].
    + exists (mkClientResponse 204 [] Sample.a_new_url).
      split; [by vm_compute|]. simpl. split; [lia|done].
Defined.

(** ** The order of the rows *)

Lemma Sorted_lookup_le (rows : list str) (i j : nat) (x y : str) :
  Sorted Str.le rows -> (i < j)%nat ->
  rows !! i = Some x -> rows !! j = Some y -> Str.le x y.
Proof.
  intros Hs%(Sorted_StronglySorted Str.le). revert i j.
  induction Hs as [|z rows _ IH Hall]; intros [|i] [|j] Hij Hi Hj;
    simplify_eq/=; try lia.
  - rewrite Forall_forall in Hall. by eapply Hall, list_elem_of_lookup_2.
  - apply (IH i j); [lia|done|done].
Qed.

Lemma unavailable_row_after_moved_row (url1 url2 : str) (r1 r2 : option str) (x y : str) :
  interpret_result url1 (Unavailable, r1) = Some x ->
  interpret_result url2 (Moved, r2) = Some y ->
  Str.compare x y = Gt.
Proof. intros [= <-] [= <-]. by vm_compute. Qed.

(** X9. In the text printed, the rows of the redirected URLs come before
    the rows of the unavailable ones. *)
Theorem X9_moved_rows_before_unavailable_rows
    (raw_response : list (list (option str))) (i j : nat)
    (url1 url2 : str) (r1 r2 : option str) :
  list_sort (omap id (concat raw_response)) !! i
  = interpret_result url1 (Unavailable, r1) ->
  list_sort (omap id (concat raw_response)) !! j
  = interpret_result url2 (Moved, r2) ->
  report raw_response
  = join newline
      (title_row :: separator_row :: list_sort (omap id (concat raw_response)))
    ++ newline
  /\ (j < i)%nat.
Proof.
  intros Hi Hj. split; [by rewrite report_rows|].
  destruct (interpret_result url1 (Unavailable, r1)) as [x|] eqn:Hx; [|done].
  destruct (interpret_result url2 (Moved, r2)) as [y|] eqn:Hy; [|done].
  pose proof (unavailable_row_after_moved_row _ _ _ _ _ _ Hx Hy) as Hgt.
  destruct (decide (i < j)%nat) as [Hlt|Hge].
  - by destruct (Sorted_lookup_le _ i j x y (list_sort_Sorted _) Hlt Hi Hj).
  - destruct (decide (i = j)) as [->|Hne]; [|lia].
    rewrite Hi in Hj. simplify_eq.
    by rewrite (proj2 (compare_eq_iff y y) eq_refl) in Hgt.
Qed.

Lemma X9_moved_rows_before_unavailable_rows_witness :
  (0 < 1)%nat.
Proof.
  refine (proj2 (X9_moved_rows_before_unavailable_rows
                   [[Some (lit "| 404 失效 | http://b.example | |"%string); None];
                    [None; Some (lit "| 301 轉址 | http://a.example | https://a.example/new |"%string)]]
                   1 0 Sample.b_url Sample.a_url None (Some Sample.a_new_url) _ _));
    by vm_compute.
Defined.

(** ** The entries that count *)

Lemma startswith_trans (s p q : str) :
  startswith s p = true -> startswith p q = true -> startswith s q = true.
Proof.
  revert s p. induction q as [|c q IH]; intros s p; [by destruct s|].
  destruct p as [|c' p]; [done|]. destruct s as [|c'' s]; [done|]. simpl.
  destruct (N.eqb_spec c'' c') as [->|]; [|done].
  destruct (N.eqb_spec c' c) as [->|]; [|done]. apply IH.
Qed.

Lemma extract_get {V} (config : dict V) (k : str) :
  dict_wf config ->
  dict_get k (extract_urls_from_config config)
  = if startswith k (lit "http"%string) then dict_get k config else None.
Proof.
  intros Hwf. rewrite (extract_filter config Hwf), (dict_get_filter is_http k config Hwf).
  unfold is_http. simpl.
  destruct (dict_get k config); simpl; by destruct (startswith k _).
Qed.

(** X10. An entry of the configuration whose key starts with [http://] or
    with [https://] is extracted, with its value. *)
Theorem X10_http_and_https_kept {V : Type} (config : dict V) (k : str) (v : V) :
  dict_wf config ->
  (k, v) ∈ config ->
  startswith k (lit "http://"%string) = true
  \/ startswith k (lit "https://"%string) = true ->
  dict_get k (extract_urls_from_config config) = Some v.
Proof.
  intros Hwf Hin Hk. rewrite (extract_get config k Hwf).
  assert (startswith k (lit "http"%string) = true) as ->.
  { destruct Hk as [Hk|Hk]; by apply (startswith_trans _ _ _ Hk). }
  by apply dict_get_elem_of.
Qed.

Lemma X10_http_and_https_kept_witness :
  dict_get Sample.a_new_url
    (extract_urls_from_config
       [(lit "Planet"%string, 0%nat); (Sample.a_new_url, 1%nat); (Sample.a_url, 2%nat)])
  = Some 1%nat.
Proof.
  apply X10_http_and_https_kept.
  - unfold dict_wf, dict_keys. apply (bool_decide_unpack _). by vm_compute.
  - right. left.
  - right. by vm_compute.
Defined.

Lemma dict_setitem_length {V} (k : str) (v : V) (d : dict V) :
  (length (dict_setitem k v d) <= S (length d))%nat.
Proof.
  induction d as [|[k' v'] d IH]; simpl; [lia|]. case_decide; simpl; lia.
Qed.

Lemma extract_length {V} (config : dict V) :
  (length (extract_urls_from_config config) <= length config)%nat.
Proof.
  unfold extract_urls_from_config, dict_items.
  assert (forall acc : dict V,
             length (fold_left
                       (fun acc '(k, v) =>
                          if startswith k (lit "http"%string)
                          then dict_setitem k v acc else acc) config acc)
             <= length acc + length config)%nat as Hfold; [|apply (Hfold [])].
  induction config as [|[k v] config IH]; intros acc; simpl; [lia|].
  etrans; [apply IH|].
  destruct (startswith k _); [|lia].
  pose proof (dict_setitem_length k v acc). lia.
Qed.

(** X12. A run that ends normally prints, after the two header rows, the
    rows of the URLs requested, and these are at most two for each extracted
    entry. *)
Theorem X12_at_most_two_rows_per_entry (sched : schedule) (net : network)
    (config : dict SectionProxy) :
  result (main sched net config) = Returned () ->
  stdout (main sched net config)
  = join newline
      (title_row :: separator_row
         :: list_sort
              (omap (row_of net) (checked_urls (extract_urls_from_config config))))
    ++ newline
  /\ (length (list_sort
                (omap (row_of net) (checked_urls (extract_urls_from_config config))))
      <= 2 * length (extract_urls_from_config config))%nat
  /\ (length (list_sort
                (omap (row_of net) (checked_urls (extract_urls_from_config config))))
      <= 2 * length config)%nat.
Proof.
  intros (raw & Hraw & ->)%main_returned.
  rewrite <-(rows_of_checked_urls net _ raw Hraw).
  split; [by rewrite report_rows|].
  rewrite (list_sort_Permutation (rows_of raw)).
  assert (length (rows_of raw) <= 2 * length (extract_urls_from_config config))%nat
    as Hlen.
  { apply mapM_Some in Hraw. unfold rows_of.
    induction Hraw as [|[key value] rows items raw' Hrows _ IH]; [done|].
    simpl. rewrite omap_app, length_app.
    unfold entry_rows in Hrows. simpl in Hrows.
    destruct (getitem_truelink value) as [truelink|]; [|done]. simpl in Hrows.
    destruct (request_action net key) as [a|]; [|done].
    destruct (request_action net truelink) as [b|]; [|done].
    simplify_eq/=. destruct a, b; simpl; lia. }
  split; [done|]. pose proof (extract_length config). lia.
Qed.

Lemma X12_at_most_two_rows_per_entry_witness :
  stdout (main Sample.sched Sample.net Sample.parsed)
  = join newline
      (title_row :: separator_row
         :: list_sort
              (omap (row_of Sample.net)
                 (checked_urls (extract_urls_from_config Sample.parsed))))
    ++ newline
  /\ (length (list_sort
                (omap (row_of Sample.net)
                   (checked_urls (extract_urls_from_config Sample.parsed))))
      <= 2 * length (extract_urls_from_config Sample.parsed))%nat
  /\ (length (list_sort
                (omap (row_of Sample.net)
                   (checked_urls (extract_urls_from_config Sample.parsed))))
      <= 2 * length Sample.parsed)%nat.
Proof. apply X12_at_most_two_rows_per_entry. by vm_compute. Defined.
